(** * zerologgorm: a GORM logger on top of zerolog

    Shallow embedding of [logger.go]: the [options] record and its option
    functions, [NewLogger], [ParamsFilter] and the [Trace] decision
    procedure.  The collaborators of the package (the clock behind
    [time.Since], the [resultProvider] callback and the zerolog event sent
    to the sink) are effects; they are threaded through an explicit
    [World] by a small state monad, and every effect is appended to a
    chronological log so that order and multiplicity can be stated. *)

From Stdlib Require Import ZArith String List Bool Lia Permutation.
Import ListNotations.
Local Open Scope Z_scope.

(** ** Go values used by the package *)

(** [zerolog.Level]: the named constants of the library. *)
Inductive Level :=
| TraceLevel | DebugLevel | InfoLevel | WarnLevel | ErrorLevel
| FatalLevel | PanicLevel | NoLevel | Disabled.

(** [time.Duration] and the monotonic instant of a [time.Time] are signed
    64-bit nanosecond counts. *)
Definition Duration := Z.
Definition Time := Z.

Definition Nanosecond : Duration := 1.
Definition Millisecond : Duration := 1000000.

Definition minDuration : Duration := - 2 ^ 63.
Definition maxDuration : Duration := 2 ^ 63 - 1.

(** [Time.Sub] saturates instead of wrapping around. *)
Definition Time_Sub (t u : Time) : Duration :=
  let d := t - u in
  if d <? minDuration then minDuration
  else if maxDuration <? d then maxDuration
  else d.

(** [Duration.Milliseconds]: integer division truncating toward zero. *)
Definition Milliseconds (d : Duration) : Z := Z.quot d 1000000.

(** The dynamic type of an error value, and what [==] compares on an
    interface value: the dynamic type together with the pointer (or, for
    a type used by value, the value). *)
Inductive DynType :=
| T_errorString | T_wrapError | T_joinError | T_custom (ty : nat).

Definition ErrId : Type := DynType * nat.

Definition DynType_eqb (a b : DynType) : bool :=
  match a, b with
  | T_errorString, T_errorString => true
  | T_wrapError, T_wrapError => true
  | T_joinError, T_joinError => true
  | T_custom t, T_custom t' => Nat.eqb t t'
  | _, _ => false
  end.

(** Go [error] values.  Every error of the standard constructors is a
    pointer, so each node carries the address that [==] compares:
    [errors.New] gives an [errorString], [fmt.Errorf] with [%w] a
    [wrapError] and [errors.Join] a [joinError].  A [customError] is a
    value of an error type of the program's own, number [ty]: it may
    carry an [Is(target error) bool] method, given by its verdict on the
    identity of the target, and what its [Unwrap] returns (nothing, one
    error or several). *)
#[warnings="-register-all"]
Inductive error :=
| errorString (addr : nat) (s : string)
| wrapError (addr : nat) (msg : string) (err : error)
| joinError (addr : nat) (errs : list error)
| customError (ty addr : nat) (isMethod : option (ErrId -> bool))
              (unwrapped : list error).

Definition identity (e : error) : ErrId :=
  match e with
  | errorString p _ => (T_errorString, p)
  | wrapError p _ _ => (T_wrapError, p)
  | joinError p _ => (T_joinError, p)
  | customError ty p _ _ => (T_custom ty, p)
  end.

(** Interface equality [err == target]: same dynamic type, same pointer. *)
Definition error_same (a b : error) : bool :=
  match a, b with
  | errorString p _, errorString q _ => Nat.eqb p q
  | wrapError p _ _, wrapError q _ _ => Nat.eqb p q
  | joinError p _, joinError q _ => Nat.eqb p q
  | customError t p _ _, customError t' q _ _ => Nat.eqb t t' && Nat.eqb p q
  | _, _ => false
  end.

(** The second test of the loop: [err] has an [Is] method and
    [err.Is(target)] reports true. *)
Definition is_method_accepts (err target : error) : bool :=
  match err with
  | customError _ _ (Some m) _ => m (identity target)
  | _ => false
  end.

(** [errors.Is] on a non-nil [err]: the loop of the standard library that
    compares with [==], asks the [Is] method of [err] if it has one, then
    follows [Unwrap() error] or tries every member of [Unwrap() []error]. *)
Fixpoint errors_Is (err target : error) {struct err} : bool :=
  error_same err target ||
  is_method_accepts err target ||
  match err with
  | errorString _ _ => false
  | wrapError _ _ inner => errors_Is inner target
  | joinError _ errs => existsb (fun e => errors_Is e target) errs
  | customError _ _ _ errs => existsb (fun e => errors_Is e target) errs
  end.

(** [gorm.ErrRecordNotFound = errors.New("record not found")], allocated
    once at package initialisation. *)
Definition ErrRecordNotFound : error := errorString 0 "record not found".

(** ** zerolog events *)

Inductive Field :=
| FErr (e : error)
| FInt64 (key : string) (v : Z)
| FStr (key : string) (v : string).

Record Event := mkEvent {
  ev_level : Level;
  ev_skipFrame : Z;
  ev_fields : list Field
}.

(** A [*zerolog.Event]; [None] is the nil event, on which every method
    returns at once. *)
Definition EventPtr := option Event.

(** [Logger.newEvent] for a level the sink lets through; [Error()],
    [Warn()] and [Info()] are [newEvent] at their level. *)
Definition newEvent (lvl : Level) : EventPtr := Some (mkEvent lvl 0 []).

(** [Logger.WithLevel]: an event of that level, and the nil event for
    [Disabled]. *)
Definition WithLevel (lvl : Level) : EventPtr :=
  match lvl with
  | Disabled => None
  | _ => newEvent lvl
  end.

Definition Event_Err (e : error) (ev : EventPtr) : EventPtr :=
  match ev with
  | None => None
  | Some ev =>
      Some (mkEvent (ev_level ev) (ev_skipFrame ev)
                    (ev_fields ev ++ [FErr e]))
  end.

Definition CallerSkipFrame (skip : Z) (ev : EventPtr) : EventPtr :=
  match ev with
  | None => None
  | Some ev =>
      Some (mkEvent (ev_level ev) (ev_skipFrame ev + skip) (ev_fields ev))
  end.

Definition Event_Int64 (key : string) (v : Z) (ev : EventPtr) : EventPtr :=
  match ev with
  | None => None
  | Some ev =>
      Some (mkEvent (ev_level ev) (ev_skipFrame ev)
                    (ev_fields ev ++ [FInt64 key v]))
  end.

Definition Event_Str (key v : string) (ev : EventPtr) : EventPtr :=
  match ev with
  | None => None
  | Some ev =>
      Some (mkEvent (ev_level ev) (ev_skipFrame ev)
                    (ev_fields ev ++ [FStr key v]))
  end.

(** ** Effects *)

(** What a call does to its collaborators.  [ESend ev] is a call
    [event.Send()] on an event that exists, which hands [ev] to the
    sink; what the sink then does with it (its own level filter) is the
    sink's. *)
Inductive Effect :=
| ESince (d : Duration)            (* a call of time.Since *)
| EProvider                        (* a call of the resultProvider f *)
| ESend (ev : Event).              (* event.Send() *)

(** The world a call runs in: [clock k] is the instant the [k]-th reading
    of the clock returns, [reads] counts the readings so far and [log]
    lists the effects performed, oldest first. *)
Record World := mkWorld {
  clock : nat -> Time;
  reads : nat;
  log : list Effect
}.

Definition M (A : Type) : Type := World -> A * World.

Definition ret {A} (a : A) : M A := fun w => (a, w).

Definition bind {A B} (m : M A) (k : A -> M B) : M B :=
  fun w => let (a, w') := m w in k a w'.

Declare Scope go_scope.
Delimit Scope go_scope with go.
Notation "x <- c ;; k" := (bind c (fun x => k))
  (at level 61, c at next level, right associativity) : go_scope.
Notation "c ;; k" := (bind c (fun _ => k))
  (at level 61, right associativity) : go_scope.
Local Open Scope go_scope.

Definition emit (e : Effect) : M unit :=
  fun w => (tt, mkWorld (clock w) (reads w) (log w ++ [e])).

(** [time.Since(begin)]: one reading of the clock. *)
Definition time_Since (begin : Time) : M Duration :=
  fun w =>
    let d := Time_Sub (clock w (reads w)) begin in
    (d, mkWorld (clock w) (S (reads w)) (log w ++ [ESince d])).

(** The callback [f func() (string, int64)]: the value it produces, and
    the call itself as an effect. *)
Definition resultProvider := unit -> string * Z.

Definition call (f : resultProvider) : M (string * Z) :=
  emit EProvider ;; ret (f tt).

(** [event.Send()]; on the nil event it does nothing. *)
Definition Send (ev : EventPtr) : M unit :=
  match ev with
  | None => ret tt
  | Some ev => emit (ESend ev)
  end.

Definition exec {A} (m : M A) (w : World) : World := snd (m w).

(** What reached the sink, and how often the callback ran. *)
Fixpoint sent (l : list Effect) : list Event :=
  match l with
  | [] => []
  | ESend ev :: l' => ev :: sent l'
  | _ :: l' => sent l'
  end.

Fixpoint provider_calls (l : list Effect) : nat :=
  match l with
  | [] => O
  | EProvider :: l' => S (provider_calls l')
  | _ :: l' => provider_calls l'
  end.

Fixpoint clock_reads (l : list Effect) : list Duration :=
  match l with
  | [] => []
  | ESince d :: l' => d :: clock_reads l'
  | _ :: l' => clock_reads l'
  end.

(** The effects a computation added to the log of [w]. *)
Definition effects {A} (m : M A) (w : World) : list Effect :=
  skipn (length (log w)) (log (exec m w)).

(** ** The package *)

Record options := mkOptions {
  logParams : bool;
  skipFrames : Z;
  defaultLogLevel : Level;
  fieldName : string;
  ignoreNotFoundErr : bool;
  slowThreshold : Duration;
  logAll : bool
}.

Record Logger := mkLogger { opt : options }.

(** An [OptionFn] mutates the [options] it is handed; here it returns the
    updated record. *)
Definition OptionFn := options -> options.

Definition WithLogAll : OptionFn := fun o =>
  mkOptions (logParams o) (skipFrames o) (defaultLogLevel o) (fieldName o)
            (ignoreNotFoundErr o) (slowThreshold o) true.

Definition WithIgnoreNotFoundError : OptionFn := fun o =>
  mkOptions (logParams o) (skipFrames o) (defaultLogLevel o) (fieldName o)
            true (slowThreshold o) (logAll o).

Definition WithLogParams : OptionFn := fun o =>
  mkOptions true (skipFrames o) (defaultLogLevel o) (fieldName o)
            (ignoreNotFoundErr o) (slowThreshold o) (logAll o).

Definition WithSkipFrames (skip : Z) : OptionFn := fun o =>
  mkOptions (logParams o) skip (defaultLogLevel o) (fieldName o)
            (ignoreNotFoundErr o) (slowThreshold o) (logAll o).

Definition WithSqlFieldName (name : string) : OptionFn := fun o =>
  mkOptions (logParams o) (skipFrames o) (defaultLogLevel o) name
            (ignoreNotFoundErr o) (slowThreshold o) (logAll o).

Definition WithDefaultLogLevel (level : Level) : OptionFn := fun o =>
  mkOptions (logParams o) (skipFrames o) level (fieldName o)
            (ignoreNotFoundErr o) (slowThreshold o) (logAll o).

Definition WithSlowThreshold (threshold : Duration) : OptionFn := fun o =>
  mkOptions (logParams o) (skipFrames o) (defaultLogLevel o) (fieldName o)
            (ignoreNotFoundErr o) threshold (logAll o).

(** The composite literal of [NewLogger]: the three fields it names, the
    zero value everywhere else. *)
Definition defaults : options :=
  mkOptions false 0 DebugLevel "sql" false (500 * Millisecond) false.

Definition NewLogger (opts : list OptionFn) : Logger :=
  mkLogger (fold_left (fun o fn => fn o) opts defaults).

(** The calls a client of the package can write to obtain an [OptionFn],
    and the field each one assigns. *)
Inductive OptionCall :=
| CallWithLogAll
| CallWithIgnoreNotFoundError
| CallWithLogParams
| CallWithSkipFrames (skip : Z)
| CallWithSqlFieldName (name : string)
| CallWithDefaultLogLevel (level : Level)
| CallWithSlowThreshold (threshold : Duration).

Definition optionFn (c : OptionCall) : OptionFn :=
  match c with
  | CallWithLogAll => WithLogAll
  | CallWithIgnoreNotFoundError => WithIgnoreNotFoundError
  | CallWithLogParams => WithLogParams
  | CallWithSkipFrames skip => WithSkipFrames skip
  | CallWithSqlFieldName name => WithSqlFieldName name
  | CallWithDefaultLogLevel level => WithDefaultLogLevel level
  | CallWithSlowThreshold threshold => WithSlowThreshold threshold
  end.

Inductive FieldId :=
| F_logParams | F_skipFrames | F_defaultLogLevel | F_fieldName
| F_ignoreNotFoundErr | F_slowThreshold | F_logAll.

Definition target (c : OptionCall) : FieldId :=
  match c with
  | CallWithLogAll => F_logAll
  | CallWithIgnoreNotFoundError => F_ignoreNotFoundErr
  | CallWithLogParams => F_logParams
  | CallWithSkipFrames _ => F_skipFrames
  | CallWithSqlFieldName _ => F_fieldName
  | CallWithDefaultLogLevel _ => F_defaultLogLevel
  | CallWithSlowThreshold _ => F_slowThreshold
  end.

(** A Go slice of parameters: [None] is the nil slice. *)
Definition slice (A : Type) := option (list A).

Definition ParamsFilter {A} (l : Logger) (sql : string) (params : slice A)
  : string * slice A :=
  if negb (logParams (opt l)) then (sql, None)
  else (sql, params).

(** Lines 181-201 of [Trace]: the emission once [event] and [shouldLog]
    are settled. *)
Definition Trace_emit (l : Logger) (begin : Time) (f : resultProvider)
           (event : EventPtr) (shouldLog : bool) : M unit :=
  if negb shouldLog then ret tt
  else
    let event := if skipFrames (opt l) >? 0
                 then CallerSkipFrame (skipFrames (opt l)) event
                 else event in
    d <- time_Since begin ;;
    let event := Event_Int64 "elapsed_ms" (Milliseconds d) event in
    r <- call f ;;
    let (sql, rows) := (r : string * Z) in
    let event := if String.eqb sql "" then event
                 else Event_Str (fieldName (opt l)) sql event in
    let event := if rows >? -1
                 then Event_Int64 "rows_affected" rows event
                 else event in
    Send event.

(** The slow-query test of line 164; [&&] does not read the clock when the
    threshold is not positive. *)
Definition isSlow (l : Logger) (begin : Time) : M bool :=
  if slowThreshold (opt l) >? 0
  then d <- time_Since begin ;; ret (d >? slowThreshold (opt l))
  else ret false.

Definition Trace (l : Logger) (begin : Time) (f : resultProvider)
           (err : option error) : M unit :=
  let logLevel := defaultLogLevel (opt l) in
  let shouldLog := logAll (opt l) in
  slow <- isSlow l begin ;;
  let logLevel := if (slow : bool) then WarnLevel else logLevel in
  let shouldLog := if slow then true else shouldLog in
  let event := WithLevel logLevel in
  match err with
  | Some e =>
      if ignoreNotFoundErr (opt l) && errors_Is e ErrRecordNotFound
      then ret tt
      else Trace_emit l begin f (Event_Err e (newEvent ErrorLevel)) true
  | None => Trace_emit l begin f event shouldLog
  end.

(** ** Closed forms used by the statements below *)

Definition sql_field (l : Logger) (sql : string) : list Field :=
  if String.eqb sql "" then [] else [FStr (fieldName (opt l)) sql].

Definition rows_field (rows : Z) : list Field :=
  if rows >? -1 then [FInt64 "rows_affected" rows] else [].

(** The event [Trace_emit] hands to [Send] when it started from [ev] and
    read the elapsed time [d]. *)
Definition recorded (l : Logger) (d : Duration) (f : resultProvider)
           (ev : Event) : Event :=
  mkEvent (ev_level ev)
          (if skipFrames (opt l) >? 0
           then ev_skipFrame ev + skipFrames (opt l) else ev_skipFrame ev)
          (ev_fields ev ++
           FInt64 "elapsed_ms" (Milliseconds d) ::
           sql_field l (fst (f tt)) ++ rows_field (snd (f tt))).

(** The [k]-th next reading of [time.Since(begin)] in world [w]. *)
Definition since_at (w : World) (begin : Time) (k : nat) : Duration :=
  Time_Sub (clock w (reads w + k)%nat) begin.

(** Some error reached from the given one by [Unwrap] (itself included)
    either is [target] by [==] or has an [Is] method that accepts
    [target]. *)
Inductive InChain (target : error) : error -> Prop :=
| chain_here e :
    error_same e target = true -> InChain target e
| chain_is e :
    is_method_accepts e target = true -> InChain target e
| chain_wrap p msg e :
    InChain target e -> InChain target (wrapError p msg e)
| chain_join p errs e :
    In e errs -> InChain target e -> InChain target (joinError p errs)
| chain_custom ty p m errs e :
    In e errs -> InChain target e ->
    InChain target (customError ty p m errs).

(** The reading of the ignore-not-found test by pointer identity alone. *)
Definition suppressed_only_on_identity
           (l : Logger) (begin : Time) (f : resultProvider) (e : error)
           (w : World) : Prop :=
  sent (effects (Trace l begin f (Some e)) w) = [] <->
  error_same e ErrRecordNotFound = true.

(** Decision and recorded field of a successful trace explained by one
    measurement [d]. *)
Definition agree_on_one_measurement
           (l : Logger) (begin : Time) (f : resultProvider) (w : World)
  : Prop :=
  exists d : Duration,
    forall ev, In ev (sent (effects (Trace l begin f None) w)) ->
      In (FInt64 "elapsed_ms" (Milliseconds d)) (ev_fields ev) /\
      ev_level ev =
        if (slowThreshold (opt l) >? 0) && (d >? slowThreshold (opt l))
        then WarnLevel else defaultLogLevel (opt l).

(** Whether [Trace] gets past its two silent returns (the ignored
    not-found error of line 173, [shouldLog] false at line 181). *)
Definition proceeds (l : Logger) (slow : bool) (err : option error) : bool :=
  match err with
  | Some e => negb (ignoreNotFoundErr (opt l) &&
                    errors_Is e ErrRecordNotFound)
  | None => slow || logAll (opt l)
  end.

(** The event [Trace] holds when it gets there: the Error event carrying
    [err], or the event of the level it settled on, which is nil for
    [Disabled]. *)
Definition started (l : Logger) (slow : bool) (err : option error)
  : EventPtr :=
  match err with
  | Some e => Event_Err e (newEvent ErrorLevel)
  | None => WithLevel (if slow then WarnLevel else defaultLogLevel (opt l))
  end.

(** The event [Trace] will complete and send, or [None] when it sends
    nothing. *)
Definition decision (l : Logger) (slow : bool) (err : option error)
  : option Event :=
  if proceeds l slow err then started l slow err else None.

(** The whole effect of one [Trace] call, in closed form: an optional
    reading for the slow-query test, then, unless the call returns
    silently, a second reading, the callback, and the send of the event
    if there is one. *)
Definition Trace_closed (l : Logger) (begin : Time) (f : resultProvider)
           (err : option error) (w : World) : list Effect :=
  let slow := (slowThreshold (opt l) >? 0) &&
              (since_at w begin 0 >? slowThreshold (opt l)) in
  let d := since_at w begin (if slowThreshold (opt l) >? 0
                             then 1 else 0) in
  (if slowThreshold (opt l) >? 0 then [ESince (since_at w begin 0)] else [])
  ++
  (if proceeds l slow err then [ESince d; EProvider] else [])
  ++
  match decision l slow err with
  | None => []
  | Some ev => [ESend (recorded l d f ev)]
  end.

(** What each option call is meant to leave in the configuration. *)
Definition written (c : OptionCall) (o : options) : Prop :=
  match c with
  | CallWithLogAll => logAll o = true
  | CallWithIgnoreNotFoundError => ignoreNotFoundErr o = true
  | CallWithLogParams => logParams o = true
  | CallWithSkipFrames skip => skipFrames o = skip
  | CallWithSqlFieldName name => fieldName o = name
  | CallWithDefaultLogLevel level => defaultLogLevel o = level
  | CallWithSlowThreshold threshold => slowThreshold o = threshold
  end.

(** Structural induction on errors that also covers the members of a
    [joinError]. *)
Fixpoint error_rect' (P : error -> Prop)
         (Hs : forall p s, P (errorString p s))
         (Hw : forall p msg e, P e -> P (wrapError p msg e))
         (Hj : forall p errs, Forall P errs -> P (joinError p errs))
         (Hc : forall ty p m errs, Forall P errs ->
                                   P (customError ty p m errs))
         (e : error) {struct e} : P e :=
  match e with
  | errorString p s => Hs p s
  | wrapError p msg e' => Hw p msg e' (error_rect' P Hs Hw Hj Hc e')
  | joinError p errs =>
      Hj p errs
         ((fix all (es : list error) : Forall P es :=
             match es with
             | [] => Forall_nil P
             | x :: xs =>
                 Forall_cons x (error_rect' P Hs Hw Hj Hc x) (all xs)
             end) errs)
  | customError ty p m errs =>
      Hc ty p m errs
         ((fix all (es : list error) : Forall P es :=
             match es with
             | [] => Forall_nil P
             | x :: xs =>
                 Forall_cons x (error_rect' P Hs Hw Hj Hc x) (all xs)
             end) errs)
  end.

(** ** Leveled logging and LogMode *)

(** [logger.LogLevel] of gorm is an [int]. *)
Definition LogLevel := Z.

Definition Silent : LogLevel := 1.

(** [LogMode] ignores its argument and returns the receiver. *)
Definition LogMode (l : Logger) (_ : LogLevel) : Logger := l.

(** [apply]: the caller-skip shared by [Error], [Warn] and [Info]. *)
Definition apply (l : Logger) (event : EventPtr) : EventPtr :=
  if skipFrames (opt l) >? 0
  then CallerSkipFrame (skipFrames (opt l)) event
  else event.

(** [event.Msg(msg)]: the message is written under the key ["message"]
    unless it is empty, then the event is sent. *)
Definition Msg (msg : string) (ev : EventPtr) : M unit :=
  Send (if String.eqb msg "" then ev else Event_Str "message" msg ev).

Section Leveled.

(** The arguments of a variadic [...interface{}] and [fmt.Sprintf], which
    the package only calls. *)
Variable any : Type.
Variable Sprintf : string -> list any -> string.

Definition Error (l : Logger) (msg : string) (opts : list any) : M unit :=
  Msg (Sprintf msg opts) (apply l (newEvent ErrorLevel)).

Definition Warn (l : Logger) (msg : string) (opts : list any) : M unit :=
  Msg (Sprintf msg opts) (apply l (newEvent WarnLevel)).

Definition Info (l : Logger) (msg : string) (opts : list any) : M unit :=
  Msg (Sprintf msg opts) (apply l (newEvent InfoLevel)).

End Leveled.

(** ** The revision of the package without [logAll] *)

Module Rev0.

Record options := mkOptions {
  logParams : bool;
  skipFrames : Z;
  defaultLogLevel : Level;
  fieldName : string;
  ignoreNotFoundErr : bool;
  slowThreshold : Duration
}.

Record Logger := mkLogger { opt : options }.

Definition Trace (l : Logger) (begin : Time) (f : resultProvider)
           (err : option error) : M unit :=
  let logLevel := defaultLogLevel (opt l) in
  slow <- (if slowThreshold (opt l) >? 0
           then d <- time_Since begin ;; ret (d >? slowThreshold (opt l))
           else ret false) ;;
  let logLevel := if (slow : bool) then WarnLevel else logLevel in
  let event := WithLevel logLevel in
  let emit_event (event : EventPtr) : M unit :=
    let event := if skipFrames (opt l) >? 0
                 then CallerSkipFrame (skipFrames (opt l)) event
                 else event in
    d <- time_Since begin ;;
    let event := Event_Int64 "elapsed_ms" (Milliseconds d) event in
    r <- call f ;;
    let (sql, rows) := (r : string * Z) in
    let event := if String.eqb sql "" then event
                 else Event_Str (fieldName (opt l)) sql event in
    let event := if rows >? -1
                 then Event_Int64 "rows_affected" rows event
                 else event in
    Send event in
  match err with
  | Some e =>
      if ignoreNotFoundErr (opt l) && errors_Is e ErrRecordNotFound
      then ret tt
      else emit_event (Event_Err e (newEvent ErrorLevel))
  | None => emit_event event
  end.

End Rev0.

(** The configuration of a logger as the revision without [logAll] holds
    it. *)
Definition without_logAll (l : Logger) : Rev0.Logger :=
  Rev0.mkLogger
    (Rev0.mkOptions (logParams (opt l)) (skipFrames (opt l))
                    (defaultLogLevel (opt l)) (fieldName (opt l))
                    (ignoreNotFoundErr (opt l)) (slowThreshold (opt l))).

(** ** Reading one field of two configurations *)

Definition field_agree (F : FieldId) (o1 o2 : options) : Prop :=
  match F with
  | F_logParams => logParams o1 = logParams o2
  | F_skipFrames => skipFrames o1 = skipFrames o2
  | F_defaultLogLevel => defaultLogLevel o1 = defaultLogLevel o2
  | F_fieldName => fieldName o1 = fieldName o2
  | F_ignoreNotFoundErr => ignoreNotFoundErr o1 = ignoreNotFoundErr o2
  | F_slowThreshold => slowThreshold o1 = slowThreshold o2
  | F_logAll => logAll o1 = logAll o2
  end.

Definition FieldId_eqb (a b : FieldId) : bool :=
  match a, b with
  | F_logParams, F_logParams | F_skipFrames, F_skipFrames
  | F_defaultLogLevel, F_defaultLogLevel | F_fieldName, F_fieldName
  | F_ignoreNotFoundErr, F_ignoreNotFoundErr
  | F_slowThreshold, F_slowThreshold | F_logAll, F_logAll => true
  | _, _ => false
  end.

(** The option list of [NewLogger] written as calls. *)
Definition NewLoggerOf (cs : list OptionCall) : Logger :=
  NewLogger (map optionFn cs).

(** The loop of [NewLogger] started from any configuration. *)
Definition apply_options (cs : list OptionCall) (o : options) : options :=
  fold_left (fun o fn => fn o) (map optionFn cs) o.

(** ** Sample inputs *)

Definition select_one : resultProvider := fun _ => ("SELECT 1"%string, 1).

(** A clock that shows 400ms at the first reading and 600ms afterwards. *)
Definition drifting_clock (k : nat) : Time :=
  match k with
  | O => 400 * Millisecond
  | S _ => 600 * Millisecond
  end.

Definition drifting_world : World := mkWorld drifting_clock 0 [].

(** A clock that stands still at 2ms. *)
Definition frozen_world : World := mkWorld (fun _ => 2 * Millisecond) 0 [].

(** [fmt.Errorf("find user: %w", gorm.ErrRecordNotFound)]. *)
Definition wrapped_not_found : error :=
  wrapError 1 "find user" ErrRecordNotFound.

(** [errors.New("some error")]. *)
Definition some_error : error := errorString 2 "some error".

(** A value [isNotFound{}] of a program type whose method is
    [func (isNotFound) Is(target error) bool
       { return target == gorm.ErrRecordNotFound }]
    and which has no [Unwrap]. *)
Definition isNotFound : error :=
  customError 0 0
    (Some (fun id : ErrId =>
             DynType_eqb (fst id) T_errorString && Nat.eqb (snd id) 0))
    [].


(** * Properties *)

Lemma skipn_length_app {A : Type} (l l' : list A) :
  skipn (length l) (l ++ l') = l'.
Proof. induction l as [| a l IH]; simpl; auto. Qed.

Lemma effects_of {A} (m : M A) (w : World) (new : list Effect) :
  log (exec m w) = log w ++ new -> effects m w = new.
Proof. unfold effects. intros ->. apply skipn_length_app. Qed.

Lemma errors_Is_unfold (err target : error) :
  errors_Is err target =
  error_same err target ||
  is_method_accepts err target ||
  match err with
  | errorString _ _ => false
  | wrapError _ _ inner => errors_Is inner target
  | joinError _ errs => existsb (fun e => errors_Is e target) errs
  | customError _ _ _ errs => existsb (fun e => errors_Is e target) errs
  end.
Proof. destruct err; reflexivity. Qed.

(** [errors.Is] decides whether the [Unwrap] chain holds an error that is
    the target or whose [Is] method accepts it. *)
Lemma errors_Is_InChain (target e : error) :
  errors_Is e target = true <-> InChain target e.
Proof.
  split.
  - induction e as [p s | p msg e IH | p errs IH | ty p m errs IH]
      using error_rect';
      rewrite errors_Is_unfold; intros H;
      apply orb_true_iff in H; destruct H as [H | H];
      try (apply orb_true_iff in H; destruct H as [H | H]);
      try (now apply chain_here); try (now apply chain_is);
      try discriminate.
    + apply chain_wrap; auto.
    + apply existsb_exists in H. destruct H as [x [Hin Hx]].
      rewrite Forall_forall in IH.
      eapply chain_join; eauto.
    + apply existsb_exists in H. destruct H as [x [Hin Hx]].
      rewrite Forall_forall in IH.
      eapply chain_custom; eauto.
  - induction 1 as [e H | e H | p msg e _ IH | p errs e Hin _ IH
                    | ty p m errs e Hin _ IH];
      rewrite errors_Is_unfold.
    + now rewrite H.
    + rewrite H. now rewrite orb_true_r.
    + rewrite IH. apply orb_true_r.
    + apply orb_true_iff. right. apply existsb_exists. eauto.
    + apply orb_true_iff. right. apply existsb_exists. eauto.
Qed.

(** ** Running [Trace] *)

Lemma isSlow_run (l : Logger) (begin : Time) (w : World) :
  isSlow l begin w =
  if slowThreshold (opt l) >? 0
  then (since_at w begin 0 >? slowThreshold (opt l),
        mkWorld (clock w) (S (reads w)) (log w ++ [ESince (since_at w begin 0)]))
  else (false, w).
Proof.
  unfold isSlow, since_at. rewrite Nat.add_0_r.
  destruct (slowThreshold (opt l) >? 0); reflexivity.
Qed.

Lemma Trace_emit_run (l : Logger) (begin : Time) (f : resultProvider)
      (ev : EventPtr) (b : bool) (w : World) :
  Trace_emit l begin f ev b w =
  (tt, if b
       then mkWorld (clock w) (S (reads w))
              (log w ++ [ESince (since_at w begin 0); EProvider] ++
               match ev with
               | Some e => [ESend (recorded l (since_at w begin 0) f e)]
               | None => []
               end)
       else w).
Proof.
  destruct b; [| reflexivity].
  unfold Trace_emit, recorded, sql_field, rows_field, since_at,
    bind, call, Send, emit, time_Since, ret.
  rewrite Nat.add_0_r. simpl.
  destruct (f tt) as [sql rows]. simpl.
  destruct ev as [e |];
    destruct (skipFrames (opt l) >? 0), (String.eqb sql ""), (rows >? -1);
    unfold Event_Int64, Event_Str, CallerSkipFrame; simpl;
    repeat rewrite <- app_assoc; reflexivity.
Qed.

Lemma Trace_unfold (l : Logger) (begin : Time) (f : resultProvider)
      (err : option error) (w : World) :
  Trace l begin f err w =
  let (slow, w1) := isSlow l begin w in
  match err with
  | Some e =>
      if ignoreNotFoundErr (opt l) && errors_Is e ErrRecordNotFound
      then (tt, w1)
      else Trace_emit l begin f (Event_Err e (newEvent ErrorLevel)) true w1
  | None =>
      Trace_emit l begin f
        (WithLevel (if slow then WarnLevel else defaultLogLevel (opt l)))
        (if slow then true else logAll (opt l)) w1
  end.
Proof.
  unfold Trace, bind, ret. destruct (isSlow l begin w) as [slow w1].
  destruct err as [e |]; [| reflexivity].
  destruct (ignoreNotFoundErr (opt l) && errors_Is e ErrRecordNotFound);
    reflexivity.
Qed.

Lemma clock_reads_app (a b : list Effect) :
  clock_reads (a ++ b) = (clock_reads a ++ clock_reads b)%list.
Proof.
  induction a as [| [d | | ev] a IH]; simpl; auto. now rewrite IH.
Qed.

(** The world a [Trace] call leaves behind. *)
Lemma Trace_exec_closed (l : Logger) (begin : Time) (f : resultProvider)
      (err : option error) (w : World) :
  exec (Trace l begin f err) w =
  mkWorld (clock w)
          (reads w + length (clock_reads (Trace_closed l begin f err w)))
          (log w ++ Trace_closed l begin f err w).
Proof.
  unfold exec, Trace_closed, decision, proceeds, started.
  rewrite Trace_unfold, isSlow_run.
  destruct w as [c n lg]. unfold since_at. simpl.
  destruct (slowThreshold (opt l) >? 0) eqn:Hthr; simpl.
  - rewrite Nat.add_0_r, !Nat.add_1_r. destruct err as [e |].
    + destruct (ignoreNotFoundErr (opt l) && errors_Is e ErrRecordNotFound);
        simpl; [now rewrite Nat.add_1_r |].
      rewrite Trace_emit_run. unfold since_at. simpl.
      rewrite <- app_assoc. simpl.
      now rewrite Nat.add_0_r, (Nat.add_comm n 2).
    + rewrite Trace_emit_run. unfold since_at. simpl.
      rewrite Nat.add_0_r.
      destruct (Time_Sub (c n) begin >? slowThreshold (opt l)); simpl.
      * rewrite <- app_assoc. simpl. now rewrite (Nat.add_comm n 2).
      * destruct (logAll (opt l)); simpl.
        -- rewrite <- app_assoc. simpl.
           destruct (WithLevel (defaultLogLevel (opt l))); simpl;
             now rewrite (Nat.add_comm n 2).
        -- now rewrite Nat.add_1_r.
  - rewrite !Nat.add_0_r. destruct err as [e |].
    + destruct (ignoreNotFoundErr (opt l) && errors_Is e ErrRecordNotFound);
        simpl; [now rewrite Nat.add_0_r, app_nil_r |].
      rewrite Trace_emit_run. unfold since_at. simpl.
      now rewrite Nat.add_0_r, Nat.add_1_r.
    + rewrite Trace_emit_run. unfold since_at. simpl.
      destruct (logAll (opt l)); simpl.
      * rewrite Nat.add_0_r.
        destruct (WithLevel (defaultLogLevel (opt l))); simpl;
          now rewrite Nat.add_1_r.
      * now rewrite Nat.add_0_r, app_nil_r.
Qed.

Lemma Trace_log_closed (l : Logger) (begin : Time) (f : resultProvider)
      (err : option error) (w : World) :
  log (exec (Trace l begin f err) w) =
  (log w ++ Trace_closed l begin f err w)%list.
Proof. now rewrite Trace_exec_closed. Qed.

Lemma Trace_effects (l : Logger) (begin : Time) (f : resultProvider)
      (err : option error) (w : World) :
  effects (Trace l begin f err) w = Trace_closed l begin f err w.
Proof. apply effects_of, Trace_log_closed. Qed.

(** [Trace] only ever appends to the log. *)
Lemma Trace_log (l : Logger) (begin : Time) (f : resultProvider)
      (err : option error) (w : World) :
  log (exec (Trace l begin f err) w) =
  (log w ++ effects (Trace l begin f err) w)%list.
Proof. rewrite Trace_effects. apply Trace_log_closed. Qed.

Lemma sent_app (a b : list Effect) : sent (a ++ b) = (sent a ++ sent b)%list.
Proof.
  induction a as [| [d | | ev] a IH]; simpl; auto. now rewrite IH.
Qed.

Lemma provider_calls_app (a b : list Effect) :
  provider_calls (a ++ b) = (provider_calls a + provider_calls b)%nat.
Proof.
  induction a as [| [d | | ev] a IH]; simpl; auto.
Qed.

(** The slow-query verdict and the reading that is recorded, as functions
    of the world [Trace] starts in. *)
Lemma sent_Trace (l : Logger) (begin : Time) (f : resultProvider)
      (err : option error) (w : World) :
  sent (effects (Trace l begin f err) w) =
  match decision l ((slowThreshold (opt l) >? 0) &&
                    (since_at w begin 0 >? slowThreshold (opt l))) err with
  | None => []
  | Some ev =>
      [recorded l (since_at w begin (if slowThreshold (opt l) >? 0
                                     then 1 else 0)) f ev]
  end.
Proof.
  rewrite Trace_effects. unfold Trace_closed. cbv zeta.
  rewrite !sent_app.
  match goal with |- context [decision ?a ?b ?c] =>
    destruct (decision a b c) end;
    match goal with |- context [proceeds ?a ?b ?c] =>
      destruct (proceeds a b c) end;
    destruct (slowThreshold (opt l) >? 0); reflexivity.
Qed.

Lemma provider_calls_Trace (l : Logger) (begin : Time) (f : resultProvider)
      (err : option error) (w : World) :
  provider_calls (effects (Trace l begin f err) w) =
  if proceeds l ((slowThreshold (opt l) >? 0) &&
                 (since_at w begin 0 >? slowThreshold (opt l))) err
  then 1%nat else 0%nat.
Proof.
  rewrite Trace_effects. unfold Trace_closed. cbv zeta.
  rewrite !provider_calls_app.
  match goal with |- context [decision ?a ?b ?c] =>
    destruct (decision a b c) end;
    match goal with |- context [proceeds ?a ?b ?c] =>
      destruct (proceeds a b c) end;
    destruct (slowThreshold (opt l) >? 0); reflexivity.
Qed.

Lemma clock_reads_Trace (l : Logger) (begin : Time) (f : resultProvider)
      (err : option error) (w : World) :
  clock_reads (effects (Trace l begin f err) w) =
  ((if slowThreshold (opt l) >? 0 then [since_at w begin 0] else []) ++
   if proceeds l ((slowThreshold (opt l) >? 0) &&
                  (since_at w begin 0 >? slowThreshold (opt l))) err
   then [since_at w begin (if slowThreshold (opt l) >? 0 then 1 else 0)]
   else [])%list.
Proof.
  rewrite Trace_effects. unfold Trace_closed. cbv zeta.
  rewrite !clock_reads_app.
  match goal with |- context [decision ?a ?b ?c] =>
    destruct (decision a b c) end;
    match goal with |- context [proceeds ?a ?b ?c] =>
      destruct (proceeds a b c) end;
    destruct (slowThreshold (opt l) >? 0); reflexivity.
Qed.

Lemma WithLevel_some (lvl : Level) (ev : Event) :
  WithLevel lvl = Some ev -> ev = mkEvent lvl 0 [].
Proof. destruct lvl; simpl; intros H; now inversion H. Qed.

Lemma decision_shape (l : Logger) (slow : bool) (err : option error)
      (ev0 : Event) :
  decision l slow err = Some ev0 ->
  ev_skipFrame ev0 = 0 /\
  ev_fields ev0 = match err with Some e => [FErr e] | None => [] end /\
  ev_level ev0 = match err with
                 | Some _ => ErrorLevel
                 | None => if slow then WarnLevel
                           else defaultLogLevel (opt l)
                 end.
Proof.
  unfold decision, started. destruct (proceeds l slow err); [| discriminate].
  destruct err as [e |].
  - simpl. intros [= <-]. repeat split.
  - intros H. apply WithLevel_some in H. subst. repeat split.
Qed.

(** ** Trace: silence, escalation, suppression *)

(** C1. With [logAll=false] and [slowThreshold=0], a trace whose [err] is
    nil sends no event to the sink; the call performs no effect at all and
    leaves the world as it was. *)
Theorem Trace_silent_on_fast_success
        (l : Logger) (begin : Time) (f : resultProvider) (w : World) :
  logAll (opt l) = false ->
  slowThreshold (opt l) = 0 ->
  sent (effects (Trace l begin f None) w) = [] /\
  exec (Trace l begin f None) w = w.
Proof.
  intros Hall Hthr. split.
  - rewrite sent_Trace, Hthr. unfold decision, proceeds. simpl.
    now rewrite Hall.
  - unfold exec. rewrite Trace_unfold, isSlow_run, Hthr. simpl.
    now rewrite Trace_emit_run, Hall.
Qed.

Lemma Trace_silent_on_fast_success_witness :
  sent (effects (Trace (NewLogger [WithSlowThreshold 0]) 0 select_one None)
                frozen_world) = [] /\
  exec (Trace (NewLogger [WithSlowThreshold 0]) 0 select_one None)
       frozen_world = frozen_world.
Proof.
  apply (Trace_silent_on_fast_success
           (NewLogger [WithSlowThreshold 0]) 0 select_one frozen_world);
    reflexivity.
Defined.

(** C2 (as stated, refuted). A wrapped [ErrRecordNotFound] is non-nil and
    is not the sentinel value, yet with [ignoreNotFoundError=true] a slow
    trace carrying it sends no event at all, so none at Error level. *)
Lemma wrapped_not_found_is_not_escalated :
  error_same wrapped_not_found ErrRecordNotFound = false /\
  ~ (exists ev,
       In ev (sent (effects
                (Trace (NewLogger [WithIgnoreNotFoundError;
                                   WithSlowThreshold Nanosecond]) 0
                       select_one (Some wrapped_not_found)) frozen_world)) /\
       ev_level ev = ErrorLevel /\
       In (FErr wrapped_not_found) (ev_fields ev)).
Proof.
  split; [reflexivity |].
  intros [ev [Hin _]]. exact Hin.
Qed.

(** C2 (amended). A non-nil [err] that the not-found test does not
    swallow (the option is off, or [errors.Is] finds no
    [ErrRecordNotFound] in it) makes [Trace] send exactly one event, at
    Error level and carrying [err], whatever [logAll], [slowThreshold] and
    the clock are; a slow query therefore ends at Error as well, never at
    Warn. *)
Theorem Trace_error_is_sent_at_Error
        (l : Logger) (begin : Time) (f : resultProvider) (e : error)
        (w : World) :
  ignoreNotFoundErr (opt l) = false \/
  errors_Is e ErrRecordNotFound = false ->
  exists ev,
    sent (effects (Trace l begin f (Some e)) w) = [ev] /\
    ev_level ev = ErrorLevel /\
    In (FErr e) (ev_fields ev) /\
    provider_calls (effects (Trace l begin f (Some e)) w) = 1%nat.
Proof.
  intros H.
  assert (Hc : ignoreNotFoundErr (opt l) && errors_Is e ErrRecordNotFound
               = false).
  { destruct H as [-> | ->]; [reflexivity | apply andb_false_r]. }
  rewrite provider_calls_Trace, sent_Trace.
  unfold decision, proceeds, started. rewrite Hc. simpl.
  eexists.
  split; [reflexivity | split; [reflexivity | split; [| reflexivity]]].
  left; reflexivity.
Qed.

Lemma Trace_error_is_sent_at_Error_witness :
  exists ev,
    sent (effects (Trace (NewLogger [WithSlowThreshold Nanosecond]) 0
                         select_one (Some some_error)) frozen_world) = [ev] /\
    ev_level ev = ErrorLevel /\
    In (FErr some_error) (ev_fields ev) /\
    provider_calls
      (effects (Trace (NewLogger [WithSlowThreshold Nanosecond]) 0
                      select_one (Some some_error)) frozen_world) = 1%nat.
Proof.
  apply (Trace_error_is_sent_at_Error
           (NewLogger [WithSlowThreshold Nanosecond]) 0 select_one
           some_error frozen_world).
  left. reflexivity.
Defined.

(** C3. With [ignoreNotFoundError=true], a trace whose [err] is
    [ErrRecordNotFound] returns without sending any event and without
    calling the result provider, for every threshold, clock and [logAll]. *)
Theorem Trace_ignores_not_found
        (l : Logger) (begin : Time) (f : resultProvider) (e : error)
        (w : World) :
  ignoreNotFoundErr (opt l) = true ->
  error_same e ErrRecordNotFound = true ->
  sent (effects (Trace l begin f (Some e)) w) = [] /\
  provider_calls (effects (Trace l begin f (Some e)) w) = 0%nat /\
  sent (log (exec (Trace l begin f (Some e)) w)) = sent (log w).
Proof.
  intros Hign Hsame.
  assert (His : errors_Is e ErrRecordNotFound = true)
    by (rewrite errors_Is_unfold, Hsame; reflexivity).
  assert (Hs : sent (effects (Trace l begin f (Some e)) w) = [] /\
               provider_calls (effects (Trace l begin f (Some e)) w) = 0%nat).
  { rewrite provider_calls_Trace, sent_Trace.
    unfold decision, proceeds. rewrite Hign, His. simpl.
    split; reflexivity. }
  destruct Hs as [Hs Hp]. repeat split; trivial.
  rewrite Trace_log, sent_app, Hs. apply app_nil_r.
Qed.

Lemma Trace_ignores_not_found_witness :
  sent (effects (Trace (NewLogger [WithIgnoreNotFoundError; WithLogAll]) 0
                       select_one (Some ErrRecordNotFound)) drifting_world)
  = [] /\
  provider_calls
    (effects (Trace (NewLogger [WithIgnoreNotFoundError; WithLogAll]) 0
                    select_one (Some ErrRecordNotFound)) drifting_world)
  = 0%nat /\
  sent (log (exec (Trace (NewLogger [WithIgnoreNotFoundError; WithLogAll]) 0
                         select_one (Some ErrRecordNotFound)) drifting_world))
  = sent (log drifting_world).
Proof.
  apply (Trace_ignores_not_found
           (NewLogger [WithIgnoreNotFoundError; WithLogAll]) 0 select_one
           ErrRecordNotFound drifting_world); reflexivity.
Defined.

(** C4 (as stated, refuted). With [ignoreNotFoundError=true] a wrapped
    [ErrRecordNotFound], which is not the sentinel value itself, is
    suppressed all the same: suppression is not limited to identity. *)
Lemma wrapped_not_found_is_suppressed :
  ignoreNotFoundErr (opt (NewLogger [WithIgnoreNotFoundError; WithLogAll]))
  = true /\
  ~ suppressed_only_on_identity
      (NewLogger [WithIgnoreNotFoundError; WithLogAll]) 0 select_one
      wrapped_not_found frozen_world.
Proof.
  split; [reflexivity |].
  intros [H _].
  assert (Hsame : error_same wrapped_not_found ErrRecordNotFound = true)
    by (apply H; reflexivity).
  discriminate Hsame.
Qed.

(** C4 (amended). With [ignoreNotFoundError=true], [Trace] suppresses a
    non-nil [err] exactly when [errors.Is(err, ErrRecordNotFound)] holds,
    that is when some error reached from [err] by unwrapping, [err]
    itself included, is the sentinel value or has an [Is] method that
    accepts the sentinel. *)
Theorem Trace_suppression_follows_the_chain
        (l : Logger) (begin : Time) (f : resultProvider) (e : error)
        (w : World) :
  ignoreNotFoundErr (opt l) = true ->
  (sent (effects (Trace l begin f (Some e)) w) = [] <->
   errors_Is e ErrRecordNotFound = true) /\
  (errors_Is e ErrRecordNotFound = true <->
   InChain ErrRecordNotFound e).
Proof.
  intros Hign. split; [| apply errors_Is_InChain].
  rewrite sent_Trace.
  unfold decision, proceeds, started. rewrite Hign. simpl.
  destruct (errors_Is e ErrRecordNotFound); split; intros H;
    trivial; discriminate.
Qed.

Lemma Trace_suppression_follows_the_chain_witness :
  ((sent (effects (Trace (NewLogger [WithIgnoreNotFoundError; WithLogAll]) 0
                         select_one (Some wrapped_not_found)) frozen_world)
    = [] <->
    errors_Is wrapped_not_found ErrRecordNotFound = true) /\
   (errors_Is wrapped_not_found ErrRecordNotFound = true <->
    InChain ErrRecordNotFound wrapped_not_found)) /\
  ((sent (effects (Trace (NewLogger [WithIgnoreNotFoundError; WithLogAll]) 0
                         select_one (Some isNotFound)) frozen_world)
    = [] <->
    errors_Is isNotFound ErrRecordNotFound = true) /\
   (errors_Is isNotFound ErrRecordNotFound = true <->
    InChain ErrRecordNotFound isNotFound)).
Proof.
  split.
  - apply (Trace_suppression_follows_the_chain
             (NewLogger [WithIgnoreNotFoundError; WithLogAll]) 0 select_one
             wrapped_not_found frozen_world).
    reflexivity.
  - apply (Trace_suppression_follows_the_chain
             (NewLogger [WithIgnoreNotFoundError; WithLogAll]) 0 select_one
             isNotFound frozen_world).
    reflexivity.
Defined.

(** C5. When [err] is nil, [slowThreshold > 0] and the elapsed time read
    for the test exceeds it, [Trace] sends exactly one event: at Warn
    level, with the elapsed milliseconds read at emission under
    ["elapsed_ms"], and with the SQL text under the configured field name
    whenever the provider returned a non-empty text. *)
Theorem Trace_slow_query_is_sent_at_Warn
        (l : Logger) (begin : Time) (f : resultProvider) (w : World) :
  slowThreshold (opt l) > 0 ->
  since_at w begin 0 > slowThreshold (opt l) ->
  exists ev,
    sent (effects (Trace l begin f None) w) = [ev] /\
    ev_level ev = WarnLevel /\
    In (FInt64 "elapsed_ms" (Milliseconds (since_at w begin 1)))
       (ev_fields ev) /\
    (fst (f tt) <> ""%string ->
     In (FStr (fieldName (opt l)) (fst (f tt))) (ev_fields ev)).
Proof.
  intros Hthr Hslow.
  apply Z.gtb_gt in Hthr. apply Z.gtb_gt in Hslow.
  rewrite sent_Trace, Hthr, Hslow. simpl.
  eexists. split; [reflexivity |]. split; [reflexivity |].
  split; [left; reflexivity |].
  intros Hsql. right. apply in_or_app. left.
  unfold sql_field.
  destruct (String.eqb_spec (fst (f tt)) ""); [contradiction | now left].
Qed.

Lemma Trace_slow_query_is_sent_at_Warn_witness :
  exists ev,
    sent (effects (Trace (NewLogger [WithSlowThreshold Nanosecond]) 0
                         select_one None) frozen_world) = [ev] /\
    ev_level ev = WarnLevel /\
    In (FInt64 "elapsed_ms" (Milliseconds (since_at frozen_world 0 1)))
       (ev_fields ev) /\
    (fst (select_one tt) <> ""%string ->
     In (FStr (fieldName (opt (NewLogger [WithSlowThreshold Nanosecond])))
              (fst (select_one tt))) (ev_fields ev)).
Proof.
  apply (Trace_slow_query_is_sent_at_Warn
           (NewLogger [WithSlowThreshold Nanosecond]) 0 select_one
           frozen_world); reflexivity.
Defined.

(** ** ParamsFilter *)

(** C6. [ParamsFilter] returns the SQL text it was given, together with
    the nil slice when [logParams=false] and with the very parameter slice
    it was given when [logParams=true]; it is a function of its arguments
    only (no [World] is involved), and filtering its own result changes
    nothing. *)
Theorem ParamsFilter_spec
        {A : Type} (l : Logger) (sql : string) (params : slice A) :
  ParamsFilter l sql params =
    (sql, if logParams (opt l) then params else None) /\
  fst (ParamsFilter l sql params) = sql /\
  ParamsFilter l (fst (ParamsFilter l sql params))
               (snd (ParamsFilter l sql params)) =
    ParamsFilter l sql params.
Proof.
  unfold ParamsFilter. destruct (logParams (opt l)); simpl; auto.
Qed.

(** ** The result provider *)





(** ** Elapsed time *)

Lemma Milliseconds_600 (d : Duration) :
  Milliseconds d = 600 -> d > 500 * Millisecond.
Proof.
  unfold Milliseconds, Millisecond. intros H.
  pose proof (Z.quot_rem' d 1000000) as Hqr.
  destruct (Z_lt_le_dec d 0) as [Hneg | Hpos].
  - pose proof (Z.rem_bound_pos_neg d 1000000 ltac:(lia) ltac:(lia)). lia.
  - pose proof (Z.rem_bound_pos_pos d 1000000 ltac:(lia) Hpos). lia.
Qed.

(** C8 (as stated, refuted). With [logAll] on and the default 500ms
    threshold, a clock showing 400ms at the test and 600ms at emission
    makes [Trace] send a Debug event (judged not slow) that records
    [elapsed_ms = 600]: no single measurement explains both. *)
Lemma drifting_clock_disagrees :
  clock_reads (effects (Trace (NewLogger [WithLogAll]) 0 select_one None)
                       drifting_world)
  = [400 * Millisecond; 600 * Millisecond] /\
  ~ agree_on_one_measurement (NewLogger [WithLogAll]) 0 select_one
      drifting_world.
Proof.
  split; [reflexivity |].
  intros [d H].
  assert (Hs : sent (effects (Trace (NewLogger [WithLogAll]) 0 select_one
                                    None) drifting_world)
               = [mkEvent DebugLevel 0
                    [FInt64 "elapsed_ms" 600; FStr "sql" "SELECT 1";
                     FInt64 "rows_affected" 1]]) by reflexivity.
  rewrite Hs in H. destruct (H _ (or_introl eq_refl)) as [Hin Hlvl].
  simpl in Hin, Hlvl.
  assert (Hms : Milliseconds d = 600).
  { destruct Hin as [Heq | [Heq | [Heq | []]]];
      try discriminate Heq; now inversion Heq. }
  apply Milliseconds_600, Z.gtb_gt in Hms.
  change (500 * Millisecond) with 500000000 in Hms.
  rewrite Hms in Hlvl. discriminate Hlvl.
Qed.

(** C8 (amended). [Trace] measures the elapsed time separately for the
    two uses.  With a positive threshold the first reading of the clock
    decides slowness and a second reading is what ["elapsed_ms"]
    records; with a threshold that is not positive only that recording
    reading is made.  The recording reading is made on every call that
    does not return silently, exactly as often as the provider is called,
    whether or not an event exists to carry it.  Decision and field agree
    on one measurement when the threshold is not positive or when the two
    readings coincide. *)
Theorem Trace_measures_twice
        (l : Logger) (begin : Time) (f : resultProvider) (w : World) :
  (forall err,
     (clock_reads (effects (Trace l begin f err) w) =
        (if slowThreshold (opt l) >? 0 then [since_at w begin 0] else []) ++
        repeat (since_at w begin (if slowThreshold (opt l) >? 0
                                  then 1 else 0))
               (provider_calls (effects (Trace l begin f err) w)))%list /\
     forall ev, In ev (sent (effects (Trace l begin f err) w)) ->
       In (FInt64 "elapsed_ms"
             (Milliseconds (since_at w begin (if slowThreshold (opt l) >? 0
                                              then 1 else 0))))
          (ev_fields ev)) /\
  (forall ev, In ev (sent (effects (Trace l begin f None) w)) ->
     ev_level ev =
       if (slowThreshold (opt l) >? 0) &&
          (since_at w begin 0 >? slowThreshold (opt l))
       then WarnLevel else defaultLogLevel (opt l)) /\
  (slowThreshold (opt l) <= 0 \/ since_at w begin 0 = since_at w begin 1 ->
   agree_on_one_measurement l begin f w).
Proof.
  assert (Hrec : forall err ev,
     In ev (sent (effects (Trace l begin f err) w)) ->
     In (FInt64 "elapsed_ms"
           (Milliseconds (since_at w begin (if slowThreshold (opt l) >? 0
                                            then 1 else 0))))
        (ev_fields ev)).
  { intros err ev. rewrite sent_Trace.
    match goal with |- context [decision ?a ?b ?c] =>
      destruct (decision a b c) as [ev0 |] end; [| intros []].
    intros [<- | []]. simpl. apply in_or_app. right. now left. }
  assert (Hlvl : forall ev,
     In ev (sent (effects (Trace l begin f None) w)) ->
     ev_level ev =
       if (slowThreshold (opt l) >? 0) &&
          (since_at w begin 0 >? slowThreshold (opt l))
       then WarnLevel else defaultLogLevel (opt l)).
  { intros ev. rewrite sent_Trace.
    match goal with |- context [decision ?a ?b ?c] =>
      destruct (decision a b c) as [ev0 |] eqn:Hd end; [| intros []].
    intros [<- | []]. apply decision_shape in Hd.
    destruct Hd as [_ [_ Hl]]. exact Hl. }
  split; [| split; [exact Hlvl |]].
  - intros err. split; [| apply Hrec].
    rewrite clock_reads_Trace, provider_calls_Trace.
    match goal with |- context [proceeds ?a ?b ?c] =>
      destruct (proceeds a b c) end; reflexivity.
  - intros Hsame. exists (since_at w begin 0). intros ev Hin.
    split; [| now apply Hlvl].
    pose proof (Hrec None ev Hin) as Hf.
    destruct (Z.gtb_spec (slowThreshold (opt l)) 0) as [Hpos | Hnon];
      [| exact Hf].
    destruct Hsame as [Hle | ->]; [lia | exact Hf].
Qed.

Lemma Trace_measures_twice_witness :
  agree_on_one_measurement (NewLogger [WithSlowThreshold Nanosecond]) 0
    select_one frozen_world.
Proof.
  apply (proj2 (proj2 (Trace_measures_twice
                         (NewLogger [WithSlowThreshold Nanosecond]) 0
                         select_one frozen_world))).
  right. reflexivity.
Defined.

(** ** NewLogger *)

Lemma optionFn_commute (a b : OptionCall) (o : options) :
  target a <> target b ->
  optionFn b (optionFn a o) = optionFn a (optionFn b o).
Proof.
  destruct a, b; simpl; intros H; try reflexivity; now elim H.
Qed.

Lemma optionFn_last_wins (a b : OptionCall) (o : options) :
  target a = target b ->
  optionFn b (optionFn a o) = optionFn b o.
Proof.
  destruct a, b; simpl; intros H; try discriminate H; reflexivity.
Qed.

Lemma optionFn_writes (b : OptionCall) (o : options) :
  written b (optionFn b o).
Proof. destruct b; reflexivity. Qed.

Lemma optionFn_keeps_written (b c : OptionCall) (o : options) :
  target c <> target b -> written b o -> written b (optionFn c o).
Proof.
  destruct b, c; simpl; intros H Hw; try exact Hw; now elim H.
Qed.

Lemma options_keep_written (b : OptionCall) (post : list OptionCall) :
  (forall c, In c post -> target c <> target b) ->
  forall o, written b o ->
            written b (fold_left (fun o fn => fn o) (map optionFn post) o).
Proof.
  induction post as [| c post IH]; intros Hpost o Hw; simpl.
  - exact Hw.
  - apply IH.
    + intros c' Hc'. apply Hpost. now right.
    + apply optionFn_keeps_written; [apply Hpost; now left | exact Hw].
Qed.

(** C9. [NewLogger] starts from the defaults ([logParams=false],
    [skipFrames=0], [defaultLogLevel=Debug], [fieldName="sql"],
    [ignoreNotFoundErr=false], [slowThreshold=500ms], [logAll=false]) and
    applies its options in argument order; two neighbouring options that
    assign different fields may be swapped without changing the result,
    and of two that assign the same field only the later one counts.
    The value in a field at the end is the one the last option for that
    field was called with ([true] for the three flags), whatever stands
    before it and whatever options for other fields follow; an option
    changes no field but its own. *)
Theorem NewLogger_options_in_call_order :
  opt (NewLogger []) =
    mkOptions false 0 DebugLevel "sql" false 500000000 false /\
  (forall (fns : list OptionFn) (fn : OptionFn),
     NewLogger (fns ++ [fn]) = mkLogger (fn (opt (NewLogger fns)))) /\
  (forall (pre post : list OptionFn) (a b : OptionCall),
     target a <> target b ->
     NewLogger (pre ++ optionFn a :: optionFn b :: post) =
     NewLogger (pre ++ optionFn b :: optionFn a :: post)) /\
  (forall (pre post : list OptionFn) (a b : OptionCall),
     target a = target b ->
     NewLogger (pre ++ optionFn a :: optionFn b :: post) =
     NewLogger (pre ++ optionFn b :: post)) /\
  (forall (pre : list OptionFn) (b : OptionCall) (post : list OptionCall),
     (forall c, In c post -> target c <> target b) ->
     written b (opt (NewLogger (pre ++ optionFn b :: map optionFn post))))
  /\
  (forall (c : OptionCall) (F : FieldId) (o : options),
     target c <> F -> field_agree F (optionFn c o) o).
Proof.
  split; [reflexivity |]. split; [| split; [| split; [| split]]].
  - intros fns fn. unfold NewLogger. now rewrite fold_left_app.
  - intros pre post a b H. unfold NewLogger.
    rewrite !fold_left_app. simpl. now rewrite (optionFn_commute a b).
  - intros pre post a b H. unfold NewLogger.
    rewrite !fold_left_app. simpl. now rewrite (optionFn_last_wins a b).
  - intros pre b post H. unfold NewLogger.
    rewrite fold_left_app. simpl.
    apply options_keep_written; [exact H | apply optionFn_writes].
  - intros c F o H. destruct c, F; simpl; try reflexivity; now elim H.
Qed.

Lemma NewLogger_options_in_call_order_witness :
  NewLogger ([] ++ optionFn (CallWithSlowThreshold Nanosecond)
                :: optionFn CallWithLogAll :: []) =
  NewLogger ([] ++ optionFn CallWithLogAll
                :: optionFn (CallWithSlowThreshold Nanosecond) :: []) /\
  NewLogger ([] ++ optionFn (CallWithSqlFieldName "query")
                :: optionFn (CallWithSqlFieldName "statement") :: []) =
  NewLogger ([] ++ optionFn (CallWithSqlFieldName "statement") :: []) /\
  written (CallWithSqlFieldName "statement")
    (opt (NewLogger ([optionFn (CallWithSqlFieldName "query")] ++
                     optionFn (CallWithSqlFieldName "statement")
                     :: map optionFn [CallWithLogAll; CallWithSkipFrames 2])))
  /\
  field_agree F_logAll (optionFn (CallWithSqlFieldName "statement") defaults)
              defaults.
Proof.
  split; [| split; [| split]].
  - apply (proj1 (proj2 (proj2 NewLogger_options_in_call_order))).
    discriminate.
  - apply (proj1 (proj2 (proj2 (proj2 NewLogger_options_in_call_order)))).
    reflexivity.
  - apply (proj1 (proj2 (proj2 (proj2 (proj2
             NewLogger_options_in_call_order))))).
    intros c [<- | [<- | []]]; discriminate.
  - apply (proj2 (proj2 (proj2 (proj2 (proj2
             NewLogger_options_in_call_order))))).
    discriminate.
Defined.

(** ** Thresholds that are not positive *)

(** C10. With [slowThreshold <= 0], zero or negative, the slow-query
    branch of [Trace] is dead: the clock is not read for the test, a
    successful trace is sent only under [logAll] and then at the default
    level, and for every [err] the call behaves exactly as with a
    threshold of 0. *)
Theorem Trace_nonpositive_threshold_never_slow
        (l : Logger) (begin : Time) (f : resultProvider) (w : World) :
  slowThreshold (opt l) <= 0 ->
  isSlow l begin w = (false, w) /\
  (logAll (opt l) = false -> effects (Trace l begin f None) w = []) /\
  (forall ev, In ev (sent (effects (Trace l begin f None) w)) ->
     ev_level ev = defaultLogLevel (opt l)) /\
  (forall err,
     exec (Trace l begin f err) w =
     exec (Trace (mkLogger (WithSlowThreshold 0 (opt l))) begin f err) w).
Proof.
  intros Hthr.
  assert (Hb : (slowThreshold (opt l) >? 0) = false)
    by (destruct (Z.gtb_spec (slowThreshold (opt l)) 0); [lia | reflexivity]).
  split; [now rewrite isSlow_run, Hb |]. split; [| split].
  - intros Hall. rewrite Trace_effects.
    unfold Trace_closed, decision, proceeds.
    rewrite Hb. simpl. now rewrite Hall.
  - intros ev. rewrite sent_Trace, Hb. simpl.
    destruct (decision l false None) as [ev0 |] eqn:Hd; [| intros []].
    intros [<- | []]. apply decision_shape in Hd.
    destruct Hd as [_ [_ Hl]]. exact Hl.
  - intros err. unfold exec. rewrite !Trace_unfold, !isSlow_run, Hb.
    destruct l as [o]. simpl. destruct err as [e |]; [| reflexivity].
    destruct (ignoreNotFoundErr o && errors_Is e ErrRecordNotFound);
      reflexivity.
Qed.

Lemma Trace_nonpositive_threshold_never_slow_witness :
  isSlow (NewLogger [WithSlowThreshold (-5)]) 0 drifting_world
  = (false, drifting_world) /\
  (logAll (opt (NewLogger [WithSlowThreshold (-5)])) = false ->
   effects (Trace (NewLogger [WithSlowThreshold (-5)]) 0 select_one None)
           drifting_world = []) /\
  (forall ev,
     In ev (sent (effects (Trace (NewLogger [WithSlowThreshold (-5)]) 0
                                 select_one None) drifting_world)) ->
     ev_level ev = defaultLogLevel (opt (NewLogger [WithSlowThreshold (-5)])))
  /\
  (forall err,
     exec (Trace (NewLogger [WithSlowThreshold (-5)]) 0 select_one err)
          drifting_world =
     exec (Trace (mkLogger (WithSlowThreshold 0
                    (opt (NewLogger [WithSlowThreshold (-5)]))))
                 0 select_one err) drifting_world).
Proof.
  apply (Trace_nonpositive_threshold_never_slow
           (NewLogger [WithSlowThreshold (-5)]) 0 select_one drifting_world).
  vm_compute. discriminate.
Defined.

(** * Further properties of the package *)

(** ** The events [Trace] builds *)

Lemma sent_Trace_inv (l : Logger) (begin : Time) (f : resultProvider)
      (err : option error) (w : World) (ev : Event) :
  In ev (sent (effects (Trace l begin f err) w)) ->
  exists ev0,
    decision l ((slowThreshold (opt l) >? 0) &&
                (since_at w begin 0 >? slowThreshold (opt l))) err = Some ev0
    /\ ev = recorded l (since_at w begin (if slowThreshold (opt l) >? 0
                                          then 1 else 0)) f ev0.
Proof.
  rewrite sent_Trace.
  match goal with |- context [decision ?a ?b ?c] =>
    destruct (decision a b c) as [ev0 |] end; [| intros []].
  intros [<- | []]. now exists ev0.
Qed.

Lemma Z_max_0_gtb (z : Z) : Z.max 0 z = if z >? 0 then z else 0.
Proof. destruct (Z.gtb_spec z 0); lia. Qed.

(** X1. [Error], [Warn] and [Info] each hand exactly one event to the
    sink, at Error, Warn and Info level; they read no clock and call no
    provider.  The event carries the formatted text under ["message"]
    unless that text is empty, its caller skip is [skipFrames] when that
    is positive and 0 otherwise, and no other option has any influence,
    nor has a previous [LogMode] at any level. *)
Theorem leveled_logging_sends_one_event
        (any : Type) (Sprintf : string -> list any -> string)
        (l : Logger) (lvl : LogLevel) (msg : string) (opts : list any)
        (w : World) :
  let ev level :=
    mkEvent level (Z.max 0 (skipFrames (opt l)))
            (if String.eqb (Sprintf msg opts) "" then []
             else [FStr "message" (Sprintf msg opts)]) in
  effects (Error any Sprintf (LogMode l lvl) msg opts) w
    = [ESend (ev ErrorLevel)] /\
  effects (Warn any Sprintf (LogMode l lvl) msg opts) w
    = [ESend (ev WarnLevel)] /\
  effects (Info any Sprintf (LogMode l lvl) msg opts) w
    = [ESend (ev InfoLevel)].
Proof.
  cbv zeta. rewrite Z_max_0_gtb.
  repeat split; apply effects_of;
    unfold exec, Error, Warn, Info, LogMode, Msg, Send, emit, apply;
    destruct (skipFrames (opt l) >? 0), (String.eqb (Sprintf msg opts) "");
    reflexivity.
Qed.

(** X2. Every event [Trace] sends has caller skip [skipFrames] when that
    is positive and 0 when it is zero or negative: a negative skip is
    ignored, never subtracted. *)
Theorem Trace_skip_frames_clamped
        (l : Logger) (begin : Time) (f : resultProvider)
        (err : option error) (w : World) (ev : Event) :
  In ev (sent (effects (Trace l begin f err) w)) ->
  ev_skipFrame ev = Z.max 0 (skipFrames (opt l)).
Proof.
  intros Hin. apply sent_Trace_inv in Hin. destruct Hin as [ev0 [Hd ->]].
  apply decision_shape in Hd. destruct Hd as [Hs _].
  rewrite Z_max_0_gtb. simpl. rewrite Hs.
  destruct (skipFrames (opt l) >? 0); reflexivity.
Qed.

Lemma Trace_skip_frames_clamped_witness :
  ev_skipFrame
    (mkEvent ErrorLevel 0
       [FErr some_error; FInt64 "elapsed_ms" 2; FStr "sql" "SELECT 1";
        FInt64 "rows_affected" 1])
  = Z.max 0 (skipFrames (opt (NewLogger [WithSkipFrames (-3)]))).
Proof.
  apply (Trace_skip_frames_clamped
           (NewLogger [WithSkipFrames (-3)]) 0 select_one (Some some_error)
           frozen_world).
  left. reflexivity.
Defined.

(** X3. The fields of an event sent by [Trace] are exactly these: the
    error when [err] is non-nil, ["elapsed_ms"], the SQL text under the
    configured field name when the provider returned a non-empty text,
    and ["rows_affected"] when the provider returned a count of 0 or
    more, in this order.  A negative count and an empty text are never
    written. *)
Theorem Trace_event_fields
        (l : Logger) (begin : Time) (f : resultProvider)
        (err : option error) (w : World) (ev : Event) :
  In ev (sent (effects (Trace l begin f err) w)) ->
  (exists ms,
     ev_fields ev =
       (match err with Some e => [FErr e] | None => [] end ++
        [FInt64 "elapsed_ms" ms] ++
        (if String.eqb (fst (f tt)) "" then []
         else [FStr (fieldName (opt l)) (fst (f tt))]) ++
        (if snd (f tt) >? -1 then [FInt64 "rows_affected" (snd (f tt))]
         else []))%list) /\
  (forall r, In (FInt64 "rows_affected" r) (ev_fields ev) <->
             r = snd (f tt) /\ 0 <= r) /\
  (forall k v, In (FStr k v) (ev_fields ev) <->
               k = fieldName (opt l) /\ v = fst (f tt) /\ v <> ""%string) /\
  (forall e, In (FErr e) (ev_fields ev) <-> err = Some e).
Proof.
  intros Hin. apply sent_Trace_inv in Hin. destruct Hin as [ev0 [Hd ->]].
  apply decision_shape in Hd. destruct Hd as [_ [Hf _]].
  unfold recorded, sql_field, rows_field. simpl. rewrite Hf. clear Hf.
  destruct (f tt) as [sql rows]. simpl.
  split; [eexists; reflexivity |].
  split; [| split].
  - intros r. rewrite !in_app_iff. simpl. rewrite in_app_iff.
    destruct (Z.gtb_spec rows (-1)) as [Hr | Hr]; simpl.
    + split.
      * intros [H | [H | [H | [H | []]]]].
        -- destruct err; simpl in H; [destruct H as [H | []] |];
             try discriminate H; contradiction.
        -- discriminate H.
        -- destruct (String.eqb sql ""); simpl in H;
             [contradiction | destruct H as [H | []]; discriminate H].
        -- inversion H. subst. split; [reflexivity | lia].
      * intros [-> _]. right. right. right. now left.
    + split.
      * intros [H | [H | [H | []]]].
        -- destruct err; simpl in H; [destruct H as [H | []] |];
             try discriminate H; contradiction.
        -- discriminate H.
        -- destruct (String.eqb sql ""); simpl in H;
             [contradiction | destruct H as [H | []]; discriminate H].
      * intros [-> H0]. lia.
  - intros k v. rewrite !in_app_iff. simpl. rewrite in_app_iff.
    destruct (String.eqb_spec sql "") as [Hs | Hs]; simpl.
    + split.
      * intros [H | [H | [[] | H]]].
        -- destruct err; simpl in H; [destruct H as [H | []] |];
             try discriminate H; contradiction.
        -- discriminate H.
        -- destruct (rows >? -1); simpl in H;
             [destruct H as [H | []]; discriminate H | contradiction].
      * intros [_ [-> H]]. contradiction.
    + split.
      * intros [H | [H | [[H | []] | H]]].
        -- destruct err; simpl in H; [destruct H as [H | []] |];
             try discriminate H; contradiction.
        -- discriminate H.
        -- inversion H. subst. auto.
        -- destruct (rows >? -1); simpl in H;
             [destruct H as [H | []]; discriminate H | contradiction].
      * intros [-> [-> _]]. right. right. left. now left.
  - intros e. rewrite !in_app_iff. simpl. rewrite in_app_iff.
    split.
    + intros [H | [H | [H | H]]].
      * destruct err; simpl in H; [destruct H as [H | []] |];
          [now inversion H | contradiction].
      * discriminate H.
      * destruct (String.eqb sql ""); simpl in H;
          [contradiction | destruct H as [H | []]; discriminate H].
      * destruct (rows >? -1); simpl in H;
          [destruct H as [H | []]; discriminate H | contradiction].
    + intros ->. left. now left.
Qed.

Lemma Trace_event_fields_witness :
  exists ms,
    ev_fields
      (mkEvent ErrorLevel 0
         [FErr some_error; FInt64 "elapsed_ms" 2; FStr "sql" "SELECT 1";
          FInt64 "rows_affected" 1]) =
      (match Some some_error with Some e => [FErr e] | None => [] end ++
       [FInt64 "elapsed_ms" ms] ++
       (if String.eqb (fst (select_one tt)) "" then []
        else [FStr (fieldName (opt (NewLogger []))) (fst (select_one tt))]) ++
       (if snd (select_one tt) >? -1
        then [FInt64 "rows_affected" (snd (select_one tt))]
        else []))%list.
Proof.
  apply (proj1 (Trace_event_fields
                  (NewLogger []) 0 select_one (Some some_error) frozen_world
                  _ (or_introl eq_refl))).
Defined.

(** ** How much a call does *)

(** X4. One call of [Trace] sends at most one event and reads the clock
    at most twice; it leaves the clock itself and everything logged
    before untouched, appending its own effects, and the world's count of
    readings grows by exactly the readings it made. *)
Theorem Trace_footprint
        (l : Logger) (begin : Time) (f : resultProvider)
        (err : option error) (w : World) :
  (length (sent (effects (Trace l begin f err) w)) <= 1)%nat /\
  (length (clock_reads (effects (Trace l begin f err) w)) <= 2)%nat /\
  clock (exec (Trace l begin f err) w) = clock w /\
  reads (exec (Trace l begin f err) w) =
    (reads w + length (clock_reads (effects (Trace l begin f err) w)))%nat /\
  firstn (length (log w)) (log (exec (Trace l begin f err) w)) = log w.
Proof.
  split; [| split].
  - rewrite sent_Trace.
    match goal with |- context [decision ?a ?b ?c] =>
      destruct (decision a b c) end; simpl; lia.
  - rewrite clock_reads_Trace.
    match goal with |- context [proceeds ?a ?b ?c] =>
      destruct (proceeds a b c) end;
      destruct (slowThreshold (opt l) >? 0); simpl; lia.
  - rewrite Trace_exec_closed, Trace_effects. simpl.
    split; [reflexivity | split; [reflexivity |]].
    rewrite firstn_app, Nat.sub_diag, firstn_all. simpl. apply app_nil_r.
Qed.



(** ** The clock *)

Lemma Time_Sub_monotone (t t' u : Time) :
  t <= t' -> Time_Sub t u <= Time_Sub t' u.
Proof.
  unfold Time_Sub, minDuration, maxDuration. intros H.
  destruct (Z.ltb_spec (t - u) (- 2 ^ 63)),
           (Z.ltb_spec (t' - u) (- 2 ^ 63)),
           (Z.ltb_spec (2 ^ 63 - 1) (t - u)),
           (Z.ltb_spec (2 ^ 63 - 1) (t' - u)); lia.
Qed.

Lemma Time_Sub_not_after (t u : Time) : t <= u -> Time_Sub t u <= 0.
Proof.
  unfold Time_Sub, minDuration, maxDuration. intros H.
  destruct (Z.ltb_spec (t - u) (- 2 ^ 63)),
           (Z.ltb_spec (2 ^ 63 - 1) (t - u)); lia.
Qed.

(** X6. When the clock does not run backwards between the two readings
    of a call, a successful trace judged slow records an ["elapsed_ms"]
    that is at least the threshold in whole milliseconds. *)
Theorem Trace_slow_elapsed_at_least_threshold
        (l : Logger) (begin : Time) (f : resultProvider) (w : World) :
  slowThreshold (opt l) > 0 ->
  since_at w begin 0 > slowThreshold (opt l) ->
  clock w (reads w) <= clock w (S (reads w)) ->
  exists ev ms,
    sent (effects (Trace l begin f None) w) = [ev] /\
    ev_level ev = WarnLevel /\
    In (FInt64 "elapsed_ms" ms) (ev_fields ev) /\
    Milliseconds (slowThreshold (opt l)) <= ms.
Proof.
  intros Hthr Hslow Hmono.
  assert (Hle : slowThreshold (opt l) <= since_at w begin 1).
  { unfold since_at in *. rewrite Nat.add_0_r in Hslow.
    rewrite Nat.add_1_r.
    pose proof (Time_Sub_monotone _ _ begin Hmono). lia. }
  apply Z.gtb_gt in Hthr. apply Z.gtb_gt in Hslow.
  rewrite sent_Trace, Hthr, Hslow. simpl.
  eexists. exists (Milliseconds (since_at w begin 1)).
  split; [reflexivity |]. split; [reflexivity |].
  split; [left; reflexivity |].
  unfold Milliseconds. apply Z.quot_le_mono; [lia | exact Hle].
Qed.

Lemma Trace_slow_elapsed_at_least_threshold_witness :
  exists ev ms,
    sent (effects (Trace (NewLogger []) 0 select_one None)
                  (mkWorld (fun k => 600 * Millisecond + Z.of_nat k) 0 []))
    = [ev] /\
    ev_level ev = WarnLevel /\
    In (FInt64 "elapsed_ms" ms) (ev_fields ev) /\
    Milliseconds (slowThreshold (opt (NewLogger []))) <= ms.
Proof.
  apply (Trace_slow_elapsed_at_least_threshold
           (NewLogger []) 0 select_one
           (mkWorld (fun k => 600 * Millisecond + Z.of_nat k) 0 []));
    vm_compute; (reflexivity || discriminate).
Defined.

(** X7. A trace whose [begin] is not before the current clock reading is
    never judged slow, whatever the threshold: with [logAll=false] and a
    nil [err] nothing is sent and the provider is not called. *)
Theorem Trace_future_begin_is_not_slow
        (l : Logger) (begin : Time) (f : resultProvider) (w : World) :
  clock w (reads w) <= begin ->
  logAll (opt l) = false ->
  sent (effects (Trace l begin f None) w) = [] /\
  provider_calls (effects (Trace l begin f None) w) = 0%nat.
Proof.
  intros Hfut Hall.
  assert (Hns : (slowThreshold (opt l) >? 0) &&
                (since_at w begin 0 >? slowThreshold (opt l)) = false).
  { unfold since_at. rewrite Nat.add_0_r.
    pose proof (Time_Sub_not_after _ _ Hfut).
    destruct (Z.gtb_spec (slowThreshold (opt l)) 0); [| reflexivity].
    destruct (Z.gtb_spec (Time_Sub (clock w (reads w)) begin)
                         (slowThreshold (opt l))); [lia | reflexivity]. }
  rewrite provider_calls_Trace, sent_Trace, Hns.
  unfold decision, proceeds. simpl. rewrite Hall.
  split; reflexivity.
Qed.

Lemma Trace_future_begin_is_not_slow_witness :
  sent (effects (Trace (NewLogger [WithSlowThreshold Nanosecond])
                       (5 * Millisecond) select_one None) frozen_world) = []
  /\
  provider_calls
    (effects (Trace (NewLogger [WithSlowThreshold Nanosecond])
                    (5 * Millisecond) select_one None) frozen_world) = 0%nat.
Proof.
  apply (Trace_future_begin_is_not_slow
           (NewLogger [WithSlowThreshold Nanosecond]) (5 * Millisecond)
           select_one frozen_world).
  - vm_compute. discriminate.
  - reflexivity.
Defined.

(** ** What an option list amounts to *)

Lemma NewLoggerOf_apply_options (cs : list OptionCall) :
  opt (NewLoggerOf cs) = apply_options cs defaults.
Proof. reflexivity. Qed.

Lemma apply_options_cons (c : OptionCall) (cs : list OptionCall)
      (o : options) :
  apply_options (c :: cs) o = apply_options cs (optionFn c o).
Proof. reflexivity. Qed.

Lemma apply_options_app (cs cs' : list OptionCall) (o : options) :
  apply_options (cs ++ cs') o = apply_options cs' (apply_options cs o).
Proof. unfold apply_options. now rewrite map_app, fold_left_app. Qed.

Lemma flags_after_options (cs : list OptionCall) (o : options) :
  (logAll (apply_options cs o) = true <->
   logAll o = true \/ In CallWithLogAll cs) /\
  (logParams (apply_options cs o) = true <->
   logParams o = true \/ In CallWithLogParams cs) /\
  (ignoreNotFoundErr (apply_options cs o) = true <->
   ignoreNotFoundErr o = true \/ In CallWithIgnoreNotFoundError cs).
Proof.
  revert o. induction cs as [| c cs IH]; intros o.
  - simpl. tauto.
  - rewrite apply_options_cons.
    destruct (IH (optionFn c o)) as [Ha [Hp Hi]].
    rewrite Ha, Hp, Hi. clear IH Ha Hp Hi.
    destruct c; simpl; repeat split; intros H;
      repeat match goal with
             | H : _ \/ _ |- _ => destruct H
             | H : _ = _ |- _ => discriminate H
             end; auto.
Qed.

(** X8. The three flags can only be switched on: after [NewLogger],
    [logAll], [logParams] and [ignoreNotFoundErr] are true exactly when
    [WithLogAll], [WithLogParams] and [WithIgnoreNotFoundError] occur
    somewhere in the argument list; no option turns one of them off again. *)
Theorem NewLogger_flags_on_iff_requested (cs : list OptionCall) :
  (logAll (opt (NewLoggerOf cs)) = true <-> In CallWithLogAll cs) /\
  (logParams (opt (NewLoggerOf cs)) = true <-> In CallWithLogParams cs) /\
  (ignoreNotFoundErr (opt (NewLoggerOf cs)) = true <->
   In CallWithIgnoreNotFoundError cs).
Proof.
  rewrite NewLoggerOf_apply_options.
  destruct (flags_after_options cs defaults) as [Ha [Hp Hi]].
  rewrite Ha, Hp, Hi. simpl.
  repeat split; intros H; auto; destruct H as [H | H]; auto; discriminate H.
Qed.

Lemma field_agree_refl (F : FieldId) (o : options) : field_agree F o o.
Proof. destruct F; reflexivity. Qed.

Lemma field_agree_trans (F : FieldId) (o1 o2 o3 : options) :
  field_agree F o1 o2 -> field_agree F o2 o3 -> field_agree F o1 o3.
Proof. destruct F; simpl; congruence. Qed.

Lemma optionFn_other_field (c : OptionCall) (F : FieldId) (o : options) :
  target c <> F -> field_agree F (optionFn c o) o.
Proof. destruct c, F; simpl; intros H; try reflexivity; now elim H. Qed.

Lemma optionFn_own_field (c : OptionCall) (o o' : options) :
  field_agree (target c) (optionFn c o) (optionFn c o').
Proof. destruct c; reflexivity. Qed.

Lemma apply_options_other_field (cs : list OptionCall) (F : FieldId)
      (o : options) :
  (forall c, In c cs -> target c <> F) ->
  field_agree F (apply_options cs o) o.
Proof.
  revert o. induction cs as [| c cs IH]; intros o H.
  - apply field_agree_refl.
  - rewrite apply_options_cons.
    eapply field_agree_trans.
    + apply IH. intros c' Hc'. apply H. now right.
    + apply optionFn_other_field, H. now left.
Qed.

(** X9. What [NewLogger] leaves in each field: a field no option of the
    list assigns keeps its default, and a field holds what an option
    assigned to it whenever no later option of the list assigns the same
    field, however many other options stand before, between or after. *)
Theorem NewLogger_field_values :
  (forall (cs : list OptionCall) (F : FieldId),
     (forall c, In c cs -> target c <> F) ->
     field_agree F (opt (NewLoggerOf cs)) defaults) /\
  (forall (pre rest : list OptionCall) (c : OptionCall),
     (forall c', In c' rest -> target c' <> target c) ->
     field_agree (target c) (opt (NewLoggerOf (pre ++ c :: rest)))
                 (optionFn c defaults)).
Proof.
  split.
  - intros cs F H. rewrite NewLoggerOf_apply_options.
    now apply apply_options_other_field.
  - intros pre rest c H. rewrite NewLoggerOf_apply_options.
    rewrite apply_options_app, apply_options_cons.
    eapply field_agree_trans.
    + now apply apply_options_other_field.
    + apply optionFn_own_field.
Qed.

Lemma NewLogger_field_values_witness :
  field_agree F_fieldName
    (opt (NewLoggerOf [CallWithLogAll; CallWithSkipFrames 2])) defaults /\
  field_agree (target (CallWithSlowThreshold Nanosecond))
    (opt (NewLoggerOf ([CallWithSlowThreshold Millisecond; CallWithLogAll] ++
                       CallWithSlowThreshold Nanosecond
                       :: [CallWithLogParams; CallWithSkipFrames 1])))
    (optionFn (CallWithSlowThreshold Nanosecond) defaults).
Proof.
  split.
  - apply (proj1 NewLogger_field_values).
    intros c [<- | [<- | []]]; discriminate.
  - apply (proj2 NewLogger_field_values).
    intros c [<- | [<- | []]]; discriminate.
Defined.

Lemma apply_options_Permutation (cs cs' : list OptionCall) :
  Permutation cs cs' ->
  NoDup (map target cs) ->
  forall o, apply_options cs o = apply_options cs' o.
Proof.
  induction 1 as [| x l l' Hp IH | x y l | l l' l'' Hp1 IH1 Hp2 IH2];
    intros Hnd o.
  - reflexivity.
  - rewrite !apply_options_cons. apply IH.
    simpl in Hnd. now inversion Hnd.
  - rewrite !apply_options_cons. f_equal.
    apply optionFn_commute.
    simpl in Hnd. inversion Hnd as [| ? ? Hnotin _]. subst.
    intros Heq. apply Hnotin. left. now symmetry.
  - rewrite IH1 by assumption. apply IH2.
    eapply Permutation_NoDup; [| exact Hnd].
    now apply Permutation_map.
Qed.

(** X10. Options that assign pairwise different fields may be passed to
    [NewLogger] in any order: every permutation of such a list builds the
    same logger. *)
Theorem NewLogger_order_irrelevant_for_distinct_fields
        (cs cs' : list OptionCall) :
  Permutation cs cs' ->
  NoDup (map target cs) ->
  NewLoggerOf cs = NewLoggerOf cs'.
Proof.
  intros Hp Hnd. unfold NewLoggerOf, NewLogger. f_equal.
  now apply (apply_options_Permutation cs cs').
Qed.

Lemma NewLogger_order_irrelevant_for_distinct_fields_witness :
  NewLoggerOf [CallWithLogAll; CallWithSkipFrames 1;
               CallWithSlowThreshold Nanosecond] =
  NewLoggerOf [CallWithSlowThreshold Nanosecond; CallWithLogAll;
               CallWithSkipFrames 1].
Proof.
  apply NewLogger_order_irrelevant_for_distinct_fields.
  - apply Permutation_sym.
    apply (Permutation_cons_app [CallWithLogAll; CallWithSkipFrames 1] []).
    rewrite app_nil_r. apply Permutation_refl.
  - simpl. repeat constructor; simpl; intuition discriminate.
Defined.

(** X11. A logger built by [NewLogger] redacts parameters unless
    [WithLogParams] was among its options: [ParamsFilter] returns the nil
    slice when the option is absent and the caller's slice when it is
    present, wherever in the list it stands. *)
Theorem ParamsFilter_redacts_unless_requested
        {A : Type} (cs : list OptionCall) (sql : string) (params : slice A) :
  (In CallWithLogParams cs ->
   ParamsFilter (NewLoggerOf cs) sql params = (sql, params)) /\
  (~ In CallWithLogParams cs ->
   ParamsFilter (NewLoggerOf cs) sql params = (sql, None)).
Proof.
  unfold ParamsFilter. rewrite NewLoggerOf_apply_options.
  destruct (flags_after_options cs defaults) as [_ [Hp _]].
  destruct (logParams (apply_options cs defaults)); simpl; split; intros H;
    try reflexivity.
  - exfalso. apply H. destruct (proj1 Hp eq_refl) as [H0 | H0];
      [discriminate H0 | exact H0].
  - assert (Hf : false = true) by (apply Hp; now right). discriminate Hf.
Qed.

Lemma ParamsFilter_redacts_unless_requested_witness :
  ParamsFilter (NewLoggerOf [CallWithLogAll; CallWithLogParams])
               "SELECT ?" (Some [1]) = ("SELECT ?"%string, Some [1]) /\
  ParamsFilter (NewLoggerOf [CallWithLogAll]) "SELECT ?" (Some [1])
  = ("SELECT ?"%string, None).
Proof.
  split.
  - apply (proj1 (ParamsFilter_redacts_unless_requested
                    [CallWithLogAll; CallWithLogParams] "SELECT ?"
                    (Some [1]))).
    right. left. reflexivity.
  - apply (proj2 (ParamsFilter_redacts_unless_requested
                    [CallWithLogAll] "SELECT ?" (Some [1]))).
    intros [H | []]. discriminate H.
Defined.

(** ** Loggers as built, and the revision without [logAll] *)

(** X12. A logger built without [WithLogAll] stays silent on a
    successful trace exactly when the slow test does not fire: nothing is
    sent if and only if the threshold is not positive or the elapsed time
    read for the test does not exceed it. *)
Theorem Trace_without_WithLogAll_sends_only_slow
        (cs : list OptionCall) (begin : Time) (f : resultProvider)
        (w : World) :
  ~ In CallWithLogAll cs ->
  (sent (effects (Trace (NewLoggerOf cs) begin f None) w) = [] <->
   slowThreshold (opt (NewLoggerOf cs)) <= 0 \/
   since_at w begin 0 <= slowThreshold (opt (NewLoggerOf cs))).
Proof.
  intros Hno.
  assert (Hall : logAll (opt (NewLoggerOf cs)) = false).
  { rewrite NewLoggerOf_apply_options.
    destruct (flags_after_options cs defaults) as [Ha _].
    destruct (logAll (apply_options cs defaults)); [| reflexivity].
    destruct (proj1 Ha eq_refl) as [H | H]; [discriminate H | contradiction]. }
  generalize dependent (NewLoggerOf cs). intros l Hall.
  rewrite sent_Trace. unfold decision, proceeds, started.
  rewrite Hall, orb_false_r.
  destruct (Z.gtb_spec (slowThreshold (opt l)) 0) as [Hp | Hp]; simpl.
  - destruct (Z.gtb_spec (since_at w begin 0) (slowThreshold (opt l)))
      as [Hs | Hs]; simpl.
    + split; [intros Hnil; discriminate Hnil | lia].
    + split; [now right | reflexivity].
  - split; [now left | reflexivity].
Qed.

Lemma Trace_without_WithLogAll_sends_only_slow_witness :
  sent (effects (Trace (NewLoggerOf [CallWithSkipFrames 1]) 0 select_one
                       None) frozen_world) = [] <->
  slowThreshold (opt (NewLoggerOf [CallWithSkipFrames 1])) <= 0 \/
  since_at frozen_world 0 0
  <= slowThreshold (opt (NewLoggerOf [CallWithSkipFrames 1])).
Proof.
  apply (Trace_without_WithLogAll_sends_only_slow
           [CallWithSkipFrames 1] 0 select_one frozen_world).
  intros [H | []]. discriminate H.
Defined.

(** X13. The logger [NewLogger()] with no options is silent on a
    successful trace up to and including 500ms of elapsed time, and sends
    one Warn event, with caller skip 0 and the SQL text under ["sql"],
    as soon as the elapsed time read for the test is above 500ms. *)
Theorem default_logger_warns_above_500ms
        (begin : Time) (f : resultProvider) (w : World) :
  (since_at w begin 0 <= 500 * Millisecond ->
   effects (Trace (NewLogger []) begin f None) w
   = [ESince (since_at w begin 0)]) /\
  (since_at w begin 0 > 500 * Millisecond ->
   exists ev,
     sent (effects (Trace (NewLogger []) begin f None) w) = [ev] /\
     ev_level ev = WarnLevel /\
     ev_skipFrame ev = 0 /\
     (fst (f tt) <> ""%string ->
      In (FStr "sql" (fst (f tt))) (ev_fields ev))).
Proof.
  split; intros H.
  - rewrite Trace_effects. unfold Trace_closed, decision. simpl.
    change (500 * Millisecond) with 500000000 in H.
    destruct (Z.gtb_spec (since_at w begin 0) 500000000); [lia |].
    reflexivity.
  - rewrite sent_Trace. unfold decision. simpl.
    change (500 * Millisecond) with 500000000 in H.
    destruct (Z.gtb_spec (since_at w begin 0) 500000000); [| lia].
    simpl. eexists. repeat split.
    intros Hsql. simpl. right. apply in_or_app. left.
    unfold sql_field. simpl.
    destruct (String.eqb_spec (fst (f tt)) ""); [contradiction | now left].
Qed.

Lemma default_logger_warns_above_500ms_witness :
  effects (Trace (NewLogger []) 0 select_one None) frozen_world
  = [ESince (since_at frozen_world 0 0)] /\
  exists ev,
    sent (effects (Trace (NewLogger []) 0 select_one None)
                  (mkWorld (fun _ => 501 * Millisecond) 0 [])) = [ev] /\
    ev_level ev = WarnLevel /\
    ev_skipFrame ev = 0 /\
    (fst (select_one tt) <> ""%string ->
     In (FStr "sql" (fst (select_one tt))) (ev_fields ev)).
Proof.
  split.
  - apply (proj1 (default_logger_warns_above_500ms 0 select_one
                    frozen_world)).
    vm_compute. discriminate.
  - apply (proj2 (default_logger_warns_above_500ms 0 select_one
                    (mkWorld (fun _ => 501 * Millisecond) 0 []))).
    reflexivity.
Defined.

(** X14. With [logAll] switched on, [Trace] does exactly what the [Trace]
    of the revision without that option does on the same configuration:
    same result, same clock readings, same provider call, same event. *)
Theorem Trace_with_logAll_is_Rev0_Trace
        (l : Logger) (begin : Time) (f : resultProvider)
        (err : option error) (w : World) :
  logAll (opt l) = true ->
  Trace l begin f err w = Rev0.Trace (without_logAll l) begin f err w.
Proof.
  intros Hall.
  rewrite Trace_unfold, isSlow_run.
  unfold Rev0.Trace, without_logAll, bind, ret, since_at. simpl.
  rewrite Nat.add_0_r.
  destruct (slowThreshold (opt l) >? 0); simpl.
  - destruct err as [e |].
    + destruct (ignoreNotFoundErr (opt l) && errors_Is e ErrRecordNotFound);
        reflexivity.
    + destruct (Time_Sub (clock w (reads w)) begin >? slowThreshold (opt l));
        [| rewrite Hall]; reflexivity.
  - destruct err as [e |].
    + destruct (ignoreNotFoundErr (opt l) && errors_Is e ErrRecordNotFound);
        reflexivity.
    + rewrite Hall. reflexivity.
Qed.

Lemma Trace_with_logAll_is_Rev0_Trace_witness :
  Trace (NewLogger [WithLogAll]) 0 select_one None drifting_world =
  Rev0.Trace (without_logAll (NewLogger [WithLogAll])) 0 select_one None
             drifting_world.
Proof.
  apply (Trace_with_logAll_is_Rev0_Trace
           (NewLogger [WithLogAll]) 0 select_one None drifting_world).
  reflexivity.
Defined.
